(** * Da Vinci Canvas: data-URL parsing and the request lifecycle

    A shallow embedding of [utils/fileUtils.ts] ([parseDataUrl]), of
    [styles.ts] and of the event handlers of [App.tsx], with the properties
    of the specification stated over them.

    JavaScript strings are modelled by [string]; the parser only ever
    compares characters with [","], [":"] and [";"]. *)

From Stdlib Require Import String Ascii List Bool Arith Lia.
Import ListNotations.
Open Scope list_scope.
Open Scope string_scope.

(** ** JavaScript values and string primitives *)
Module JS.

(** What a [throw] (or a rejected promise) carries: an [Error] object with
    its [message], or any other value. *)
Inductive Thrown : Type :=
| ErrorObj (message : string)
| OtherValue.

(** Completion of a synchronous call that may throw. *)
Inductive Completion (A : Type) : Type :=
| Return (a : A)
| Throw (e : Thrown).
Arguments Return {A} a.
Arguments Throw {A} e.

(** A settled promise. *)
Inductive Settled (A : Type) : Type :=
| Fulfilled (a : A)
| Rejected (e : Thrown).
Arguments Fulfilled {A} a.
Arguments Rejected {A} e.

(** [s.split(sep)] for a one-character separator. The result is never
    empty: a string without separator is returned whole, also when empty. *)
Fixpoint split (sep : ascii) (s : string) : list string :=
  match s with
  | EmptyString => [EmptyString]
  | String c r =>
      if Ascii.eqb c sep then EmptyString :: split sep r
      else match split sep r with
           | h :: t => String c h :: t
           | [] => [String c EmptyString]
           end
  end.

(** [parts.join(sep)], the inverse of [split]. *)
Fixpoint join (sep : ascii) (parts : list string) : string :=
  match parts with
  | [] => EmptyString
  | [p] => p
  | p :: ps => p ++ String sep (join sep ps)
  end.

(** Number of occurrences of a character. *)
Fixpoint occurs (c : ascii) (s : string) : nat :=
  match s with
  | EmptyString => 0
  | String d r => (if Ascii.eqb d c then 1 else 0) + occurs c r
  end.

(** [s.includes(needle)]: [needle] occurs in [s] as a substring. *)
Fixpoint includes (s needle : string) : bool :=
  String.prefix needle s ||
  match s with
  | EmptyString => false
  | String _ r => includes r needle
  end.

(** [needle] occurs in [s]: the meaning of [includes]. *)
Definition Contains (s needle : string) : Prop :=
  exists before after, s = before ++ needle ++ after.

(** [arr.includes(x)] on an array of strings (strict equality). *)
Definition arrayIncludes (arr : list string) (x : string) : bool :=
  existsb (String.eqb x) arr.

(** Truthiness of a string: only the empty string is falsy. *)
Definition truthy (s : string) : bool :=
  match s with
  | EmptyString => false
  | String _ _ => true
  end.

(** Truthiness of a [string | null] or [string | undefined] value. *)
Definition truthyOpt (v : option string) : bool :=
  match v with
  | Some s => truthy s
  | None => false
  end.

(** [a || b] on [string | null] values. *)
Definition logicalOr (a b : option string) : option string :=
  if truthyOpt a then a else b.

End JS.

(** ** utils/fileUtils.ts *)
Module FileUtils.
Import JS.

Record FileInfo : Type := mkFileInfo {
  mimeType : string;
  base64Data : string
}.

Definition errInvalidFormat : Thrown := ErrorObj "Invalid Data URL format.".
Definition errMissingMetadata : Thrown :=
  ErrorObj "Invalid Data URL: Missing metadata.".

(** The second half of [parseDataUrl]: [parts[0].split(':')[1]] (which is
    [undefined] when there is no colon), the test [!metaPart], and
    [metaPart.split(';')[0]] (always defined: [split] is never empty). *)
Definition parseMeta (meta payload : string) : Completion FileInfo :=
  match nth_error (split ":" meta) 1 with
  | Some metaPart =>
      if truthy metaPart then
        Return {| mimeType := hd EmptyString (split ";" metaPart);
                  base64Data := payload |}
      else Throw errMissingMetadata
  | None => Throw errMissingMetadata
  end.

Definition parseDataUrl (dataUrl : string) : Completion FileInfo :=
  let parts := split "," dataUrl in
  match parts with
  | [meta; payload] => parseMeta meta payload
  | _ => Throw errInvalidFormat
  end.

(** The data URL the encoder produces for a MIME type and a base64 payload. *)
Definition dataUrlOf (mime payload : string) : string :=
  "data:" ++ mime ++ ";base64," ++ payload.

(** The contract as the specification words it, in its weakest reading: one
    comma separates metadata from payload, and the metadata holds a scheme
    ended by a colon, then a MIME type ended by a semicolon. *)
Definition SpecContract (s : string) : Prop :=
  exists scheme mime rest payload,
    s = scheme ++ ":" ++ mime ++ ";" ++ rest ++ "," ++ payload.

(** The strings [parseDataUrl] accepts, read off its three tests: exactly
    one comma, a colon before it, and directly after the first colon a
    character that is neither a colon nor the comma. *)
Definition Accepted (s : string) : Prop :=
  exists scheme c rest payload,
    s = scheme ++ ":" ++ String c rest ++ "," ++ payload /\
    occurs ":" scheme = 0 /\ occurs "," scheme = 0 /\
    c <> ":"%char /\ c <> ","%char /\
    occurs "," rest = 0 /\ occurs "," payload = 0.

End FileUtils.

(** ** styles.ts *)
Module Styles.

Record PhotoStyle : Type := mkPhotoStyle {
  id : string;
  name : string;
  prompt : string
}.

Definition styles : list PhotoStyle :=
  [ {| id := "professional";
       name := "Professional Headshot";
       prompt := "A professional studio headshot. The subject is well-groomed and looking directly at the camera with a confident, serious expression. Lighting is dramatic, high-contrast Rembrandt style, with subtle rim lighting outlining the subject from a solid, deep charcoal gray or black, smooth gradient background. The focus is incredibly sharp on the face, with a shallow depth of field. High-resolution, corporate portraiture, digital photography, ultra-detailed, 8K." |};
    {| id := "casual";
       name := "Casual Portrait";
       prompt := "A relaxed, casual outdoor portrait. The subject has a natural, friendly smile. The photo is taken during the golden hour with warm, soft lighting. The background is a slightly blurred park or nature setting. The style is candid and authentic. Shot on a high-quality mirrorless camera with a prime lens, creating a beautiful bokeh effect." |};
    {| id := "artistic";
       name := "Artistic Black & White";
       prompt := "A powerful, artistic black and white portrait. The lighting is highly dramatic, creating deep shadows and bright highlights (chiaroscuro). The subject has a thoughtful or intense expression. The texture of the skin and hair is highly detailed and sharp. The background is a simple, dark, textured wall. The style is timeless, evocative, and cinematic." |};
    {| id := "social-media";
       name := "Social Media Profile";
       prompt := "A vibrant and modern profile picture suitable for social media. The subject looks approachable and energetic. The background is a clean, bright, and colorful urban wall or a modern office space with some out-of-focus elements. The lighting is bright and even, making the subject pop. The image is cropped in a square aspect ratio. It looks polished but not overly corporate." |};
    {| id := "futuristic";
       name := "Futuristic / Sci-Fi";
       prompt := "A futuristic, sci-fi themed portrait. The subject is integrated with subtle cybernetic elements or holographic interfaces. Lighting is neon-hued, with blues, purples, and magentas casting dramatic glows. The background is a sleek, minimalist futuristic cityscape or a high-tech interior. The style is inspired by cyberpunk and high-concept science fiction films. Ultra-high resolution, sharp focus, with a cinematic feel." |};
    {| id := "vintage";
       name := "Vintage / Retro";
       prompt := "A vintage-style portrait reminiscent of classic film photography from the 1970s. The subject has a nostalgic expression. The image has warm, slightly faded colors with a noticeable but pleasant film grain. The lighting is soft and natural, perhaps coming from a window. The background is a retro-styled room or outdoor scene. The final image has the characteristic look of being shot on Kodak Portra or a similar film stock." |} ].

(** [styles[0]]. *)
Definition firstStyle : PhotoStyle :=
  hd {| id := ""; name := ""; prompt := "" |} styles.

End Styles.

(** ** App.tsx *)
Module App.
Import JS.
Export FileUtils.

(** The part of a browser [File] the handlers look at. *)
Record File : Type := mkFile {
  fileName : string;
  type : string
}.

(** The component's [useState] cells. *)
Record AppState : Type := mkAppState {
  image : option string;
  generatedImage : option string;
  activeStyle : Styles.PhotoStyle;
  prompt : string;
  isLoading : bool;
  error : option string;
  fileInfo : option FileInfo;
  isStylePanelOpen : bool;
  isPromptEditorOpen : bool;
  isCheckingKey : bool;
  isKeyReady : bool
}.

(** The initial values given to [useState]. *)
Definition initialState : AppState :=
  {| image := None;
     generatedImage := None;
     activeStyle := Styles.firstStyle;
     prompt := Styles.prompt Styles.firstStyle;
     isLoading := false;
     error := None;
     fileInfo := None;
     isStylePanelOpen := false;
     isPromptEditorOpen := false;
     isCheckingKey := true;
     isKeyReady := false |}.

(** The environment: whether [window.aistudio] is defined. *)
Record Env : Type := mkEnv { aistudio : bool }.

(** One call of a state setter. *)
Inductive Setter : Type :=
| setImage (v : option string)
| setGeneratedImage (v : option string)
| setActiveStyle (v : Styles.PhotoStyle)
| setPrompt (v : string)
| setIsLoading (v : bool)
| setError (v : option string)
| setFileInfo (v : option FileInfo)
| setIsStylePanelOpen (v : bool)
| setIsPromptEditorOpen (v : bool)
| setIsCheckingKey (v : bool)
| setIsKeyReady (v : bool).

Definition applySetter (u : Setter) (s : AppState) : AppState :=
  match u with
  | setImage v =>
      mkAppState v (generatedImage s) (activeStyle s) (prompt s)
        (isLoading s) (error s) (fileInfo s) (isStylePanelOpen s)
        (isPromptEditorOpen s) (isCheckingKey s) (isKeyReady s)
  | setGeneratedImage v =>
      mkAppState (image s) v (activeStyle s) (prompt s)
        (isLoading s) (error s) (fileInfo s) (isStylePanelOpen s)
        (isPromptEditorOpen s) (isCheckingKey s) (isKeyReady s)
  | setActiveStyle v =>
      mkAppState (image s) (generatedImage s) v (prompt s)
        (isLoading s) (error s) (fileInfo s) (isStylePanelOpen s)
        (isPromptEditorOpen s) (isCheckingKey s) (isKeyReady s)
  | setPrompt v =>
      mkAppState (image s) (generatedImage s) (activeStyle s) v
        (isLoading s) (error s) (fileInfo s) (isStylePanelOpen s)
        (isPromptEditorOpen s) (isCheckingKey s) (isKeyReady s)
  | setIsLoading v =>
      mkAppState (image s) (generatedImage s) (activeStyle s) (prompt s)
        v (error s) (fileInfo s) (isStylePanelOpen s)
        (isPromptEditorOpen s) (isCheckingKey s) (isKeyReady s)
  | setError v =>
      mkAppState (image s) (generatedImage s) (activeStyle s) (prompt s)
        (isLoading s) v (fileInfo s) (isStylePanelOpen s)
        (isPromptEditorOpen s) (isCheckingKey s) (isKeyReady s)
  | setFileInfo v =>
      mkAppState (image s) (generatedImage s) (activeStyle s) (prompt s)
        (isLoading s) (error s) v (isStylePanelOpen s)
        (isPromptEditorOpen s) (isCheckingKey s) (isKeyReady s)
  | setIsStylePanelOpen v =>
      mkAppState (image s) (generatedImage s) (activeStyle s) (prompt s)
        (isLoading s) (error s) (fileInfo s) v
        (isPromptEditorOpen s) (isCheckingKey s) (isKeyReady s)
  | setIsPromptEditorOpen v =>
      mkAppState (image s) (generatedImage s) (activeStyle s) (prompt s)
        (isLoading s) (error s) (fileInfo s) (isStylePanelOpen s)
        v (isCheckingKey s) (isKeyReady s)
  | setIsCheckingKey v =>
      mkAppState (image s) (generatedImage s) (activeStyle s) (prompt s)
        (isLoading s) (error s) (fileInfo s) (isStylePanelOpen s)
        (isPromptEditorOpen s) v (isKeyReady s)
  | setIsKeyReady v =>
      mkAppState (image s) (generatedImage s) (activeStyle s) (prompt s)
        (isLoading s) (error s) (fileInfo s) (isStylePanelOpen s)
        (isPromptEditorOpen s) (isCheckingKey s) v
  end.

(** The asynchronous calls a handler awaits: the remote generation service,
    the file reader and the two host capabilities of [window.aistudio]. *)
Inductive Call : Type :=
| generateProfessionalHeadshot (base64Data mimeType prompt : string)
| fileToDataUrl (file : File)
| hasSelectedApiKey
| openSelectKey.

(** The type of the value a call's promise is fulfilled with. *)
Definition Resp (c : Call) : Type :=
  match c with
  | generateProfessionalHeadshot _ _ _ => string
  | fileToDataUrl _ => string
  | hasSelectedApiKey => bool
  | openSelectKey => unit
  end.

(** A handler body: setter calls, [console.error] and awaited calls, in
    program order. What follows an [await] depends on how the promise
    settles. *)
Inductive Task : Type :=
| Done
| Set_ (u : Setter) (k : Task)
| ConsoleError (k : Task)
| Await (c : Call) (k : Settled (Resp c) -> Task).

Notation "u ;; k" := (Set_ u k) (at level 61, right associativity).

(** What an observer sees of a handler. *)
Inductive Event : Type :=
| ESet (u : Setter)
| ECall (c : Call)
| ELog.

(** How each call settles. *)
Definition Oracle : Type := forall c : Call, Settled (Resp c).

(** The outcome of running a handler: the final state, the events in
    order, and the state committed at each [await], which is what is
    rendered while the call is outstanding. *)
Record Run : Type := mkRun {
  final : AppState;
  trace : list Event;
  suspended : list AppState
}.

Fixpoint exec (o : Oracle) (t : Task) (s : AppState) : Run :=
  match t with
  | Done => {| final := s; trace := []; suspended := [] |}
  | Set_ u k =>
      let r := exec o k (applySetter u s) in
      {| final := final r; trace := ESet u :: trace r;
         suspended := suspended r |}
  | ConsoleError k =>
      let r := exec o k s in
      {| final := final r; trace := ELog :: trace r;
         suspended := suspended r |}
  | Await c k =>
      let r := exec o (k (o c)) s in
      {| final := final r; trace := ECall c :: trace r;
         suspended := s :: suspended r |}
  end.

(** The calls made during a run. *)
Definition calls (r : Run) : list Call :=
  flat_map (fun e => match e with ECall c => [c] | _ => [] end) (trace r).

(** [checkApiKey], the effect run once at startup. *)
Definition checkApiKey (env : Env) : Task :=
  let finally_ := setIsCheckingKey false ;; Done in
  if aistudio env then
    Await hasSelectedApiKey (fun r =>
      match r with
      | Fulfilled hasKey => setIsKeyReady hasKey ;; finally_
      | Rejected _ => ConsoleError (setIsKeyReady true ;; finally_)
      end)
  else setIsKeyReady true ;; finally_.

Definition handleSignIn (env : Env) : Task :=
  if aistudio env then
    Await openSelectKey (fun r =>
      match r with
      | Fulfilled _ => setIsKeyReady true ;; Done
      | Rejected _ =>
          ConsoleError
            (setError
               (Some "Could not open the sign-in dialog. Please try again.")
             ;; Done)
      end)
  else Done.

Definition supportedMimeTypes : list string :=
  ["image/png"; "image/jpeg"; "image/webp"; "image/heic"; "image/heif"].

Definition msgUnsupported : string :=
  "Unsupported file type. Please upload a PNG, JPEG, WEBP, HEIC, or HEIF file.".
Definition msgReadFailed : string :=
  "Failed to read the image file. Please try another one.".

(** [handleImageChange]; [file] is [event.target.files?.[0]]. *)
Definition handleImageChange (file : option File) : Task :=
  match file with
  | None => Done
  | Some f =>
      if negb (arrayIncludes supportedMimeTypes (type f)) then
        setError (Some msgUnsupported) ;; Done
      else
        let catch_ := setError (Some msgReadFailed) ;; ConsoleError Done in
        setError None ;;
        setGeneratedImage None ;;
        Await (fileToDataUrl f) (fun r =>
          match r with
          | Fulfilled dataUrl =>
              setImage (Some dataUrl) ;;
              match parseDataUrl dataUrl with
              | Return fi => setFileInfo (Some fi) ;; Done
              | Throw _ => catch_
              end
          | Rejected _ => catch_
          end)
  end.

Definition msgValidation : string :=
  "Please upload an image and select a style.".
Definition entityNotFound : string := "Requested entity was not found".
Definition msgSessionExpired : string :=
  "Your session has expired or the API key is invalid. Please sign in again.".

(** [err instanceof Error ? err.message : 'An unknown error occurred.'] *)
Definition errorMessageOf (err : Thrown) : string :=
  match err with
  | ErrorObj message => message
  | OtherValue => "An unknown error occurred."
  end.

(** The rest of [handleGenerate] once the awaited call has settled: the
    end of the [try] block or the [catch] block, then [finally]. *)
Definition handleGenerateSettled (env : Env) (r : Settled string) : Task :=
  let finally_ := setIsLoading false ;; Done in
  match r with
  | Fulfilled result => setGeneratedImage (Some result) ;; finally_
  | Rejected err =>
      let errorMessage := errorMessageOf err in
      if includes errorMessage entityNotFound then
        setError (Some msgSessionExpired) ;;
        (if aistudio env
         then setIsKeyReady false ;; ConsoleError finally_
         else ConsoleError finally_)
      else
        setError (Some ("Generation failed: " ++ errorMessage)) ;;
        ConsoleError finally_
  end.

(** The request [handleGenerate] sends for a decoded upload and a prompt. *)
Definition generateCall (fi : FileInfo) (promptText : string) : Call :=
  generateProfessionalHeadshot (base64Data fi) (mimeType fi) promptText.

(** [handleGenerate]; [st] holds the values of [fileInfo] and [prompt] the
    handler closes over. *)
Definition handleGenerate (env : Env) (st : AppState) : Task :=
  match fileInfo st with
  | Some fi =>
      if truthy (prompt st) then
        setIsLoading true ;;
        setError None ;;
        setGeneratedImage None ;;
        Await (generateCall fi (prompt st)) (handleGenerateSettled env)
      else setError (Some msgValidation) ;; Done
  | None => setError (Some msgValidation) ;; Done
  end.

(** The state committed when [handleGenerate] suspends on the call: the
    three setter calls before the [try] block applied to [st]. *)
Definition requestSent (st : AppState) : AppState :=
  applySetter (setGeneratedImage None)
    (applySetter (setError None) (applySetter (setIsLoading true) st)).

Definition handleSelectStyle (style : Styles.PhotoStyle) : Task :=
  setActiveStyle style ;;
  setPrompt (Styles.prompt style) ;;
  setIsStylePanelOpen false ;;
  Done.

(** [const currentImage = generatedImage || image]. *)
Definition currentImage (s : AppState) : option string :=
  JS.logicalOr (generatedImage s) (image s).

End App.

(** ** A session: startup, then the upload of [photo.png] *)
Module Scenario.
Import JS App.

Definition photo : File := {| fileName := "photo.png"; type := "image/png" |}.
Definition photoUrl : string := "data:image/png;base64,AAAAAAAAAAA=".
Definition photoInfo : FileInfo :=
  {| mimeType := "image/png"; base64Data := "AAAAAAAAAAA=" |}.
Definition notes : File := {| fileName := "notes.txt"; type := "text/plain" |}.

Definition standalone : Env := {| aistudio := false |}.
Definition studio : Env := {| aistudio := true |}.

(** The file reader yields [photoUrl], the sign-in dialog closes normally;
    the generation call and the key check settle as given. *)
Definition oracle (gen : Settled string) (key : Settled bool) : Oracle :=
  fun c =>
    match c return Settled (Resp c) with
    | generateProfessionalHeadshot _ _ _ => gen
    | fileToDataUrl _ => Fulfilled photoUrl
    | hasSelectedApiKey => key
    | openSelectKey => Fulfilled tt
    end.

(** A service that answers with the image [result]. *)
Definition answering (result : string) : Oracle :=
  oracle (Fulfilled result) (Fulfilled true).

(** A service that fails with an [Error] carrying [message]. *)
Definition failing (message : string) : Oracle :=
  oracle (Rejected (ErrorObj message)) (Fulfilled true).

(** A host whose key check is rejected. *)
Definition brokenHost : Oracle :=
  oracle (Fulfilled photoUrl) (Rejected (ErrorObj "host unavailable")).

(** The state once the startup check has run and [photo] is uploaded. *)
Definition uploaded (env : Env) (o : Oracle) : AppState :=
  final (exec o (handleImageChange (Some photo))
           (final (exec o (checkApiKey env) initialState))).

(** The state after a first, successful generation from [uploaded]. *)
Definition generated (env : Env) (result : string) : AppState :=
  let o := answering result in
  final (exec o (handleGenerate env (uploaded env o)) (uploaded env o)).

End Scenario.

(** ** App.tsx: what the render shows, and [handleDownload] *)
Module View.
Import JS App.

(** The three returns of the component: the spinner while the key is being
    checked, the sign-in page while the gate is NotReady, the main page. *)
Inductive Screen : Type :=
| SpinnerScreen
| SignInScreen
| MainScreen.

Definition screen (s : AppState) : Screen :=
  if isCheckingKey s then SpinnerScreen
  else if negb (isKeyReady s) then SignInScreen
  else MainScreen.

(** [disabled={isLoading || !image}] on the Generate button. *)
Definition generateDisabled (s : AppState) : bool :=
  isLoading s || negb (truthyOpt (image s)).

(** The download button is rendered under [image && ...] and
    [generatedImage && ...]. *)
Definition downloadShown (s : AppState) : bool :=
  truthyOpt (image s) && truthyOpt (generatedImage s).

(** The picture of the main page: none while [!image], else [currentImage]
    when it is truthy. *)
Definition shownImage (s : AppState) : option string :=
  if truthyOpt (image s)
  then (if truthyOpt (currentImage s) then currentImage s else None)
  else None.

(** [activeStyle.id === style.id], the test that highlights a style button. *)
Definition highlighted (s : AppState) (style : Styles.PhotoStyle) : bool :=
  String.eqb (Styles.id (activeStyle s)) (Styles.id style).

(** The DOM operations of [handleDownload], in program order. *)
Inductive DomOp : Type :=
| CreateAnchor
| SetHref (v : string)
| SetDownload (v : string)
| AppendChild
| Click
| RemoveChild.

Definition handleDownload (s : AppState) : list DomOp :=
  if truthyOpt (generatedImage s) then
    match generatedImage s with
    | Some href =>
        [CreateAnchor; SetHref href; SetDownload "davinci-canvas-image.png";
         AppendChild; Click; RemoveChild]
    | None => []
    end
  else [].

End View.

(** ** Sessions: handlers run one after the other *)
Module Session.
Import JS App.

(** What can trigger a handler or a setter of the component. *)
Inductive UiEvent : Type :=
| Mount
| ClickSignIn
| ChangeFile (file : option File)
| ClickGenerate
| ClickStyle (style : Styles.PhotoStyle)
| EditPrompt (text : string)
| SetStylePanel (open : bool)
| SetPromptEditor (open : bool).

(** The code an event runs, closed over the state [st] of the render. *)
Definition handlerOf (env : Env) (ev : UiEvent) (st : AppState) : Task :=
  match ev with
  | Mount => checkApiKey env
  | ClickSignIn => handleSignIn env
  | ChangeFile file => handleImageChange file
  | ClickGenerate => handleGenerate env st
  | ClickStyle style => handleSelectStyle style
  | EditPrompt text => setPrompt text ;; Done
  | SetStylePanel open => setIsStylePanelOpen open ;; Done
  | SetPromptEditor open => setIsPromptEditorOpen open ;; Done
  end.

(** One event, run to completion, with the oracle that settles its call. *)
Definition dispatch (env : Env) (st : AppState) (oe : Oracle * UiEvent)
  : AppState :=
  final (exec (fst oe) (handlerOf env (snd oe) st) st).

Definition session (env : Env) (evs : list (Oracle * UiEvent))
           (st : AppState) : AppState :=
  fold_left (dispatch env) evs st.

(** What every session keeps: nothing is loading between events, a generated
    image comes with a decoded upload, and a decoded upload with an image. *)
Definition Quiescent (s : AppState) : Prop :=
  isLoading s = false /\
  (generatedImage s <> None -> fileInfo s <> None) /\
  (fileInfo s <> None -> image s <> None).

End Session.

(** ** More oracles *)
Module Oracles.
Import JS App.

(** The file reader settles as [read], the generation service as [gen]. *)
Definition reading (read gen : Settled string) : Oracle :=
  fun c =>
    match c return Settled (Resp c) with
    | generateProfessionalHeadshot _ _ _ => gen
    | fileToDataUrl _ => read
    | hasSelectedApiKey => Fulfilled true
    | openSelectKey => Fulfilled tt
    end.

(** The host settles the key check as [key] and the dialog as [dialog]. *)
Definition host (key : Settled bool) (dialog : Settled unit) : Oracle :=
  fun c =>
    match c return Settled (Resp c) with
    | generateProfessionalHeadshot _ _ _ => Rejected OtherValue
    | fileToDataUrl _ => Rejected OtherValue
    | hasSelectedApiKey => key
    | openSelectKey => dialog
    end.

End Oracles.

(** ** Facts about [split] *)
Section SplitFacts.
Import JS.
Variable sep : ascii.

Lemma split_nonempty (s : string) : split sep s <> [].
Proof.
  destruct s as [|c r]; simpl; [discriminate|].
  destruct (Ascii.eqb c sep); [discriminate|].
  destruct (split sep r); discriminate.
Qed.

Lemma occurs_app (a b : string) :
  occurs sep (a ++ b) = occurs sep a + occurs sep b.
Proof.
  induction a as [|c a IH]; simpl; [reflexivity|].
  rewrite IH. lia.
Qed.

Lemma length_split (s : string) :
  List.length (split sep s) = S (occurs sep s).
Proof.
  induction s as [|c r IH]; simpl; [reflexivity|].
  destruct (Ascii.eqb c sep); simpl; [now rewrite IH|].
  destruct (split sep r) as [|h t] eqn:E; simpl in *; lia.
Qed.

Lemma split_free (s : string) : occurs sep s = 0 -> split sep s = [s].
Proof.
  induction s as [|c r IH]; simpl; [reflexivity|].
  destruct (Ascii.eqb c sep); [discriminate|].
  simpl. intros H. now rewrite (IH H).
Qed.

Lemma split_app (a b : string) :
  occurs sep a = 0 -> split sep (a ++ String sep b) = a :: split sep b.
Proof.
  induction a as [|c a IH]; simpl.
  - intros _. now rewrite Ascii.eqb_refl.
  - destruct (Ascii.eqb c sep); [discriminate|].
    simpl. intros H. now rewrite (IH H).
Qed.

Lemma split_cons_neq (c : ascii) (r : string) :
  c <> sep -> exists h t, split sep (String c r) = String c h :: t.
Proof.
  intros Hc. simpl.
  apply Ascii.eqb_neq in Hc. rewrite Hc.
  destruct (split sep r) as [|h t]; eauto.
Qed.

Lemma join_split (s : string) : join sep (split sep s) = s.
Proof.
  induction s as [|c r IH]; simpl; [reflexivity|].
  destruct (Ascii.eqb c sep) eqn:E.
  - apply Ascii.eqb_eq in E. subst c.
    pose proof (split_nonempty r) as Hne.
    destruct (split sep r) as [|h t]; [congruence|].
    simpl in *. now rewrite IH.
  - pose proof (split_nonempty r) as Hne.
    destruct (split sep r) as [|h t]; [congruence|].
    destruct t as [|h' t]; simpl in *; now rewrite <- IH.
Qed.

Lemma split_parts_free (s : string) :
  Forall (fun p => occurs sep p = 0) (split sep s).
Proof.
  induction s as [|c r IH]; simpl.
  - constructor; [reflexivity|constructor].
  - destruct (Ascii.eqb c sep) eqn:E.
    + constructor; [reflexivity|exact IH].
    + destruct (split sep r) as [|h t].
      * constructor; [simpl; now rewrite E|constructor].
      * inversion IH as [|? ? Hh Ht]; subst.
        constructor; [simpl; now rewrite E|exact Ht].
Qed.

End SplitFacts.

Lemma append_assoc (a b c : string) : (a ++ b) ++ c = a ++ (b ++ c).
Proof.
  induction a as [|x a IH]; simpl; [reflexivity|now rewrite IH].
Qed.

(** ** parseDataUrl *)
Section ParseDataUrl.
Import JS FileUtils.

(** With one part before the comma and one after, [parseDataUrl] is
    [parseMeta]. *)
Lemma parseDataUrl_one_comma (meta payload : string) :
  occurs "," meta = 0 -> occurs "," payload = 0 ->
  parseDataUrl (meta ++ String "," payload) = parseMeta meta payload.
Proof.
  intros Hm Hp. unfold parseDataUrl.
  rewrite (split_app _ _ _ Hm), (split_free _ _ Hp). reflexivity.
Qed.

Lemma parseDataUrl_comma_count (s : string) :
  occurs "," s <> 1 -> parseDataUrl s = Throw errInvalidFormat.
Proof.
  intros H. unfold parseDataUrl.
  pose proof (length_split "," s) as L.
  destruct (split "," s) as [|a [|b [|c l]]]; simpl in L;
    solve [reflexivity | lia].
Qed.

(** What a successful parse says about the input. *)
Lemma parseDataUrl_Return_inv (s : string) (fi : FileInfo) :
  parseDataUrl s = Return fi ->
  exists x0 c r xs payload,
    split "," s = [join ":" (x0 :: String c r :: xs); payload] /\
    split ":" (join ":" (x0 :: String c r :: xs)) = x0 :: String c r :: xs /\
    fi = {| mimeType := hd EmptyString (split ";" (String c r));
            base64Data := payload |}.
Proof.
  unfold parseDataUrl.
  destruct (split "," s) as [|meta [|payload [|? ?]]] eqn:E;
    try discriminate.
  unfold parseMeta.
  destruct (split ":" meta) as [|x0 [|[|c r] xs]] eqn:E2;
    simpl; try discriminate.
  intros [= <-].
  exists x0, c, r, xs, payload.
  pose proof (join_split ":" meta) as J. rewrite E2 in J.
  subst meta. auto.
Qed.

(** C1. For every data URL [data:<mime>;base64,<payload>] with exactly one
    comma, [<mime>] free of [':'] and [';'] and [<payload>] free of [','],
    [parseDataUrl] returns exactly [{ mimeType: <mime>, base64Data:
    <payload> }]. *)
Theorem parseDataUrl_dataUrlOf (mime payload : string) :
  occurs "," (dataUrlOf mime payload) = 1 ->
  occurs ":" mime = 0 ->
  occurs ";" mime = 0 ->
  occurs "," payload = 0 ->
  parseDataUrl (dataUrlOf mime payload)
  = Return {| mimeType := mime; base64Data := payload |}.
Proof.
  intros Hone Hcolon Hsemi Hpay.
  assert (Hcomma : occurs "," mime = 0).
  { unfold dataUrlOf in Hone.
    rewrite !occurs_app in Hone. simpl in Hone. lia. }
  assert (E : dataUrlOf mime payload
              = ("data:" ++ mime ++ ";base64") ++ String "," payload).
  { unfold dataUrlOf. simpl. f_equal. f_equal. f_equal. f_equal. f_equal.
    now rewrite append_assoc. }
  rewrite E, parseDataUrl_one_comma; [|simpl; rewrite occurs_app; simpl; lia|exact Hpay].
  unfold parseMeta.
  change ("data:" ++ mime ++ ";base64")
    with ("data" ++ String ":" (mime ++ ";base64")).
  rewrite (split_app ":" "data" (mime ++ ";base64") eq_refl).
  rewrite (split_free ":" (mime ++ ";base64"))
    by (rewrite occurs_app; simpl; lia).
  cbv beta iota delta [nth_error].
  rewrite (split_app ";" mime "base64" Hsemi).
  destruct mime; reflexivity.
Qed.

(** The specification's example: the data URL of a 10-byte PNG file. *)
Lemma parseDataUrl_dataUrlOf_witness :
  parseDataUrl "data:image/png;base64,AAAAAAAAAAA="
  = Return {| mimeType := "image/png"; base64Data := "AAAAAAAAAAA=" |}.
Proof.
  apply (parseDataUrl_dataUrlOf "image/png" "AAAAAAAAAAA="); reflexivity.
Defined.

(** C2. An input with no comma or with two or more commas, and an input
    whose part before the comma is empty, makes [parseDataUrl] throw one of
    its two format errors; no [{ mimeType, base64Data }] is returned. *)
Theorem parseDataUrl_throws (s : string) :
  occurs "," s = 0 \/ 2 <= occurs "," s \/
    (exists payload, s = String "," payload) ->
  parseDataUrl s = Throw errInvalidFormat \/
  parseDataUrl s = Throw errMissingMetadata.
Proof.
  intros [H | [H | [payload ->]]].
  - left. apply parseDataUrl_comma_count. lia.
  - left. apply parseDataUrl_comma_count. lia.
  - destruct (Nat.eq_dec (occurs "," payload) 0) as [Hp | Hp].
    + right.
      change (String "," payload) with (EmptyString ++ String "," payload).
      rewrite parseDataUrl_one_comma by (reflexivity || exact Hp).
      reflexivity.
    + left. apply parseDataUrl_comma_count. simpl. lia.
Qed.

Lemma parseDataUrl_throws_witness :
  parseDataUrl "iVBORw0KGgo=" = Throw errInvalidFormat \/
  parseDataUrl "iVBORw0KGgo=" = Throw errMissingMetadata.
Proof.
  apply (parseDataUrl_throws "iVBORw0KGgo="). left. reflexivity.
Defined.

(** C3, as stated, fails: ["a:b,c"] has no semicolon, so its metadata is
    not a scheme followed by a semicolon-delimited MIME type, and yet it is
    parsed, with MIME type ["b"]. *)
Lemma parseDataUrl_accepts_without_semicolon :
  parseDataUrl "a:b,c" = Return {| mimeType := "b"; base64Data := "c" |} /\
  ~ SpecContract "a:b,c".
Proof.
  split; [reflexivity|].
  intros (scheme & mime & rest & payload & E).
  apply (f_equal (occurs ";")) in E.
  rewrite !occurs_app in E. simpl in E. lia.
Qed.

(** C3, amended. [parseDataUrl] returns a result exactly on the strings
    with one comma whose metadata has a colon directly followed by a
    character other than a colon; on every other string it throws one of
    its two format errors. No semicolon is required. *)
Theorem parseDataUrl_accepts_iff (s : string) :
  ((exists fi, parseDataUrl s = Return fi) <-> Accepted s) /\
  (~ Accepted s ->
   parseDataUrl s = Throw errInvalidFormat \/
   parseDataUrl s = Throw errMissingMetadata).
Proof.
  assert (Hback : Accepted s -> exists fi, parseDataUrl s = Return fi).
  { intros (scheme & c & rest & payload & -> & Hs1 & Hs2 & Hc1 & Hc2 & Hr & Hp).
    replace (scheme ++ ":" ++ String c rest ++ "," ++ payload)
      with ((scheme ++ String ":" (String c rest)) ++ String "," payload)
      by (rewrite append_assoc; simpl; f_equal; f_equal; f_equal;
          now rewrite append_assoc).
    rewrite parseDataUrl_one_comma; [| |exact Hp].
    - unfold parseMeta. rewrite split_app by exact Hs1.
      destruct (split_cons_neq ":" c rest Hc1) as (h & t & ->).
      simpl. eauto.
    - rewrite occurs_app. simpl.
      apply Ascii.eqb_neq in Hc2. rewrite Hc2. lia. }
  assert (Hfwd : (exists fi, parseDataUrl s = Return fi) -> Accepted s).
  { intros [fi Hfi].
    destruct (parseDataUrl_Return_inv _ _ Hfi)
      as (x0 & c & r & xs & payload & E1 & E2 & _).
    pose proof (join_split "," s) as J. rewrite E1 in J.
    pose proof (split_parts_free "," s) as F. rewrite E1 in F.
    pose proof (Forall_inv F) as Fm.
    pose proof (Forall_inv (Forall_inv_tail F)) as Fp.
    cbv beta in Fm, Fp.
    pose proof (split_parts_free ":" (join ":" (x0 :: String c r :: xs))) as G.
    rewrite E2 in G.
    pose proof (Forall_inv G) as G0.
    pose proof (Forall_inv (Forall_inv_tail G)) as G1.
    cbv beta in G0, G1.
    assert (Hrest : exists rest,
               join ":" (String c r :: xs) = String c rest).
    { destruct xs; simpl; eauto. }
    destruct Hrest as [rest Hrest].
    assert (Hmeta : join ":" (x0 :: String c r :: xs)
                    = x0 ++ String ":" (String c rest)).
    { change (join ":" (x0 :: String c r :: xs))
        with (x0 ++ String ":" (join ":" (String c r :: xs))).
      now rewrite Hrest. }
    rewrite Hmeta in Fm. rewrite occurs_app in Fm. simpl in Fm, G1.
    exists x0, c, rest, payload.
    repeat split.
    - rewrite <- J.
      change (join "," [join ":" (x0 :: String c r :: xs); payload])
        with (join ":" (x0 :: String c r :: xs) ++ String "," payload).
      rewrite Hmeta, append_assoc. reflexivity.
    - exact G0.
    - lia.
    - intros ->. simpl in G1. discriminate.
    - intros ->. simpl in Fm. lia.
    - destruct (Ascii.eqb c ","); lia.
    - exact Fp. }
  split; [split; assumption|].
  intros Hn.
  destruct (parseDataUrl s) as [fi | e] eqn:E.
  - exfalso. apply Hn, Hfwd. eauto.
  - unfold parseDataUrl, parseMeta in E.
    destruct (split "," s) as [|meta [|payload [|? ?]]];
      try (injection E as <-; now left).
    destruct (nth_error (split ":" meta) 1) as [m|];
      [destruct (truthy m)|];
      first [discriminate E | injection E as <-; now right].
Qed.

Lemma parseDataUrl_accepts_iff_witness :
  exists fi, parseDataUrl "blob:x,QUJD" = Return fi.
Proof.
  apply (proj1 (parseDataUrl_accepts_iff "blob:x,QUJD")).
  exists "blob", "x"%char, EmptyString, "QUJD".
  repeat split; try reflexivity; intros H; discriminate H.
Defined.

End ParseDataUrl.

(** ** String search *)
Section Includes.
Import JS.

Lemma prefix_spec (p s : string) :
  String.prefix p s = true <-> exists rest, s = p ++ rest.
Proof.
  revert s. induction p as [|a p IH]; intros s; simpl.
  - destruct s; simpl; split; eauto.
  - destruct s as [|b s]; simpl.
    + split; [discriminate|intros [rest H]; discriminate H].
    + destruct (ascii_dec a b) as [->|Hab].
      * rewrite IH. split; intros [rest H]; exists rest; congruence.
      * split; [discriminate|intros [rest H]; congruence].
Qed.

Lemma includes_spec (s needle : string) :
  includes s needle = true <-> Contains s needle.
Proof.
  unfold Contains. induction s as [|c r IH]; cbn [includes].
  - rewrite orb_false_r, prefix_spec. split.
    + intros [rest H]. exists EmptyString, rest. exact H.
    + intros ([|x before] & after & H); [eauto|discriminate H].
  - rewrite orb_true_iff, prefix_spec, IH. split.
    + intros [[rest H] | (before & after & H)].
      * exists EmptyString, rest. exact H.
      * exists (String c before), after. simpl. now rewrite H.
    + intros ([|x before] & after & H); simpl in H.
      * left. eauto.
      * right. exists before, after. congruence.
Qed.

Lemma includes_false (s needle : string) :
  includes s needle = false <-> ~ Contains s needle.
Proof.
  rewrite <- includes_spec. destruct (includes s needle); split; congruence.
Qed.

Lemma arrayIncludes_spec (arr : list string) (x : string) :
  arrayIncludes arr x = true <-> In x arr.
Proof.
  unfold arrayIncludes. rewrite existsb_exists. split.
  - intros (y & Hy & E). apply String.eqb_eq in E. now subst.
  - intros H. exists x. split; [exact H|apply String.eqb_refl].
Qed.

Lemma truthy_true (s : string) : truthy s = true <-> s <> EmptyString.
Proof. destruct s; simpl; split; congruence. Qed.

End Includes.

(** ** The generation request: [handleGenerate] *)
Section HandleGenerate.
Import JS App.
Variable env : Env.
Variable o : Oracle.

(** Nothing is awaited after the generation call has settled. *)
Lemma handleGenerateSettled_no_await (x : Settled string) (s : AppState) :
  suspended (exec o (handleGenerateSettled env x) s) = [] /\
  calls (exec o (handleGenerateSettled env x) s) = [].
Proof.
  unfold handleGenerateSettled.
  destruct x as [result | err]; [split; reflexivity|].
  destruct (includes (errorMessageOf err) entityNotFound);
    [destruct (aistudio env)|]; split; reflexivity.
Qed.

(** However the call settles, the upload, its decoded form and the prompt
    are left alone, and loading ends. *)
Lemma handleGenerateSettled_frame (x : Settled string) (s : AppState) :
  let s' := final (exec o (handleGenerateSettled env x) s) in
  image s' = image s /\ fileInfo s' = fileInfo s /\
  prompt s' = prompt s /\ isLoading s' = false.
Proof.
  unfold handleGenerateSettled.
  destruct x as [result | err]; [repeat split|].
  destruct (includes (errorMessageOf err) entityNotFound);
    [destruct (aistudio env)|]; repeat split.
Qed.

(** A rejected call touches [generatedImage] no more. *)
Lemma handleGenerateSettled_Rejected_generatedImage
      (err : Thrown) (s : AppState) :
  generatedImage (final (exec o (handleGenerateSettled env (Rejected err)) s))
  = generatedImage s.
Proof.
  unfold handleGenerateSettled.
  destruct (includes (errorMessageOf err) entityNotFound);
    [destruct (aistudio env)|]; reflexivity.
Qed.

(** A request that passes the entry guard: three setter calls, the remote
    call, then whatever follows its settling. *)
Lemma exec_handleGenerate_valid (st : AppState) (fi : FileInfo) :
  fileInfo st = Some fi ->
  prompt st <> EmptyString ->
  let c := generateCall fi (prompt st) in
  let r' := exec o (handleGenerateSettled env (o c)) (requestSent st) in
  exec o (handleGenerate env st) st
  = {| final := final r';
       trace := ESet (setIsLoading true) :: ESet (setError None)
                :: ESet (setGeneratedImage None) :: ECall c :: trace r';
       suspended := requestSent st :: suspended r' |}.
Proof.
  intros Hfi Hp. apply truthy_true in Hp.
  unfold handleGenerate. rewrite Hfi, Hp. reflexivity.
Qed.

(** C4. A generation attempt with no decoded image or with an empty prompt
    only sets the validation message: no call is made, the handler never
    suspends and [setIsLoading(true)] is not reached. *)
Theorem handleGenerate_rejected_by_guard (st : AppState) :
  fileInfo st = None \/ prompt st = EmptyString ->
  let r := exec o (handleGenerate env st) st in
  trace r = [ESet (setError (Some msgValidation))] /\
  calls r = [] /\
  suspended r = [] /\
  final r = applySetter (setError (Some msgValidation)) st /\
  error (final r) = Some msgValidation /\
  isLoading (final r) = isLoading st.
Proof.
  intros H.
  assert (E : handleGenerate env st = setError (Some msgValidation) ;; Done).
  { unfold handleGenerate. destruct H as [-> | ->]; [reflexivity|].
    destruct (fileInfo st); reflexivity. }
  rewrite E. repeat split.
Qed.

(** C5, amended. When the call fails with a message that contains
    ['Requested entity was not found'], the session-expired message is shown
    and the gate is reset to NotReady if [window.aistudio] is present, and
    left as it was if it is absent. For any other message the gate is left
    as it was and ['Generation failed: ' + message] is shown. *)
Theorem handleGenerate_failure (st : AppState) (fi : FileInfo) (err : Thrown) :
  fileInfo st = Some fi ->
  prompt st <> EmptyString ->
  o (generateCall fi (prompt st)) = Rejected err ->
  let r := exec o (handleGenerate env st) st in
  (Contains (errorMessageOf err) entityNotFound ->
   error (final r) = Some msgSessionExpired /\
   isKeyReady (final r) = if aistudio env then false else isKeyReady st) /\
  (~ Contains (errorMessageOf err) entityNotFound ->
   error (final r) = Some ("Generation failed: " ++ errorMessageOf err) /\
   isKeyReady (final r) = isKeyReady st).
Proof.
  intros Hfi Hp Ho.
  rewrite (exec_handleGenerate_valid st fi Hfi Hp).
  cbv zeta. rewrite Ho. cbn [final]. unfold handleGenerateSettled.
  split; intros Hc.
  - apply includes_spec in Hc. rewrite Hc.
    destruct (aistudio env); split; reflexivity.
  - apply includes_false in Hc. rewrite Hc. split; reflexivity.
Qed.

(** C7. When the call succeeds, the returned image becomes
    [generatedImage], whatever it held before, and (being a data URL, hence
    not the empty string) the displayed [currentImage]; the uploaded [image]
    and [fileInfo] are as before the request. *)
Theorem handleGenerate_success (st : AppState) (fi : FileInfo) (result : string) :
  fileInfo st = Some fi ->
  prompt st <> EmptyString ->
  o (generateCall fi (prompt st)) = Fulfilled result ->
  let r := exec o (handleGenerate env st) st in
  generatedImage (final r) = Some result /\
  (result <> EmptyString -> currentImage (final r) = Some result) /\
  image (final r) = image st /\
  fileInfo (final r) = fileInfo st.
Proof.
  intros Hfi Hp Ho.
  rewrite (exec_handleGenerate_valid st fi Hfi Hp).
  cbv zeta. rewrite Ho. cbn [final].
  repeat split.
  intros Hr. unfold currentImage, JS.logicalOr. simpl.
  apply truthy_true in Hr. now rewrite Hr.
Qed.

(** C10. A request that passes the entry guard calls
    [setGeneratedImage(null)] and [setError(null)] before the remote call,
    so the state committed while the call is outstanding holds neither; if
    the call is then rejected, [generatedImage] stays [null] and
    [currentImage] is the uploaded image. *)
Theorem handleGenerate_clears_first (st : AppState) (fi : FileInfo) :
  fileInfo st = Some fi ->
  prompt st <> EmptyString ->
  let c := generateCall fi (prompt st) in
  let r := exec o (handleGenerate env st) st in
  (exists after,
      trace r = ESet (setIsLoading true) :: ESet (setError None)
                :: ESet (setGeneratedImage None) :: ECall c :: after) /\
  calls r = [c] /\
  suspended r = [requestSent st] /\
  generatedImage (requestSent st) = None /\
  error (requestSent st) = None /\
  (forall err, o c = Rejected err ->
     generatedImage (final r) = None /\
     currentImage (final r) = image st).
Proof.
  intros Hfi Hp.
  rewrite (exec_handleGenerate_valid st fi Hfi Hp). cbv zeta.
  destruct (handleGenerateSettled_no_await
              (o (generateCall fi (prompt st))) (requestSent st)) as [Hs Hc].
  cbn [trace suspended final]. rewrite Hs.
  repeat split; try reflexivity.
  - eauto.
  - unfold calls in *. cbn [trace flat_map]. now rewrite Hc.
  - rewrite H, handleGenerateSettled_Rejected_generatedImage. reflexivity.
  - destruct (handleGenerateSettled_frame
                (o (generateCall fi (prompt st))) (requestSent st))
      as (Hi & _).
    cbv zeta in Hi. unfold currentImage. rewrite Hi.
    rewrite H, handleGenerateSettled_Rejected_generatedImage. reflexivity.
Qed.

End HandleGenerate.

(** Witnesses and the refutation of C5 as stated, on the session of
    [Scenario]. *)
Section HandleGenerateScenario.
Import JS App Scenario.

Lemma handleGenerate_rejected_by_guard_witness :
  fileInfo initialState = None /\
  calls (exec (answering photoUrl)
           (handleGenerate standalone initialState) initialState) = [].
Proof.
  split; [reflexivity|].
  apply (handleGenerate_rejected_by_guard
           standalone (answering photoUrl) initialState).
  left. reflexivity.
Defined.

(** C5, as stated, fails: outside AI Studio ([window.aistudio] undefined) a
    failure whose message is the phrase itself shows the session-expired
    message and leaves the gate Ready. *)
Lemma handleGenerate_standalone_gate_stays_ready :
  let o := failing "Requested entity was not found" in
  let st := uploaded standalone o in
  let r := exec o (handleGenerate standalone st) st in
  fileInfo st = Some photoInfo /\
  o (generateCall photoInfo (prompt st))
  = Rejected (ErrorObj "Requested entity was not found") /\
  includes "Requested entity was not found" entityNotFound = true /\
  isKeyReady st = true /\
  error (final r) = Some msgSessionExpired /\
  isKeyReady (final r) = true.
Proof. repeat split. Qed.

Lemma handleGenerate_failure_witness :
  let o := failing "Requested entity was not found" in
  let st := uploaded studio o in
  isKeyReady st = true /\
  isKeyReady (final (exec o (handleGenerate studio st) st)) = false.
Proof.
  split; [reflexivity|].
  refine (proj2 (proj1 (handleGenerate_failure studio
                          (failing "Requested entity was not found")
                          (uploaded studio
                             (failing "Requested entity was not found"))
                          photoInfo
                          (ErrorObj "Requested entity was not found")
                          eq_refl _ eq_refl) _)).
  - discriminate.
  - exists EmptyString, EmptyString. reflexivity.
Defined.

Lemma handleGenerate_success_witness :
  let st := generated standalone "data:image/png;base64,Q0ND" in
  let o := answering "data:image/png;base64,QkJCQg==" in
  generatedImage st = Some "data:image/png;base64,Q0ND" /\
  generatedImage (final (exec o (handleGenerate standalone st) st))
  = Some "data:image/png;base64,QkJCQg==".
Proof.
  split; [reflexivity|].
  refine (proj1 (handleGenerate_success standalone
                   (answering "data:image/png;base64,QkJCQg==")
                   (generated standalone "data:image/png;base64,Q0ND")
                   photoInfo "data:image/png;base64,QkJCQg=="
                   eq_refl _ eq_refl)).
  discriminate.
Defined.

Lemma handleGenerate_clears_first_witness :
  let st := generated standalone "data:image/png;base64,Q0ND" in
  let o := failing "quota exceeded" in
  generatedImage st = Some "data:image/png;base64,Q0ND" /\
  suspended (exec o (handleGenerate standalone st) st) = [requestSent st].
Proof.
  split; [reflexivity|].
  refine (proj1 (proj2 (proj2 (handleGenerate_clears_first standalone
                   (failing "quota exceeded")
                   (generated standalone "data:image/png;base64,Q0ND")
                   photoInfo eq_refl _)))).
  discriminate.
Defined.

End HandleGenerateScenario.

(** ** The upload: [handleImageChange] *)
Section HandleImageChange.
Import JS App.
Variable o : Oracle.

Lemma handleImageChange_unsupported (f : File) :
  ~ In (type f) supportedMimeTypes ->
  handleImageChange (Some f) = setError (Some msgUnsupported) ;; Done.
Proof.
  intros H. unfold handleImageChange.
  destruct (arrayIncludes supportedMimeTypes (type f)) eqn:E;
    [|reflexivity].
  apply arrayIncludes_spec in E. contradiction.
Qed.

(** A file on the allow-list does reach the encoder, once. *)
Lemma handleImageChange_supported (f : File) (st : AppState) :
  In (type f) supportedMimeTypes ->
  calls (exec o (handleImageChange (Some f)) st) = [fileToDataUrl f].
Proof.
  intros H. apply arrayIncludes_spec in H.
  unfold handleImageChange. rewrite H. cbn -[parseDataUrl].
  destruct (o (fileToDataUrl f)) as [dataUrl | err]; [|reflexivity].
  cbn -[parseDataUrl]. destruct (parseDataUrl dataUrl); reflexivity.
Qed.

(** C6. A file whose MIME type is not on the allow-list is rejected with
    the unsupported-type message and nothing else happens: no call at all
    is made, so [fileToDataUrl] is not called. *)
Theorem handleImageChange_rejects_before_encode (f : File) (st : AppState) :
  ~ In (type f) supportedMimeTypes ->
  let r := exec o (handleImageChange (Some f)) st in
  trace r = [ESet (setError (Some msgUnsupported))] /\
  calls r = [] /\
  ~ In (ECall (fileToDataUrl f)) (trace r) /\
  error (final r) = Some msgUnsupported.
Proof.
  intros H. rewrite (handleImageChange_unsupported f H).
  split; [reflexivity|]. split; [reflexivity|]. split; [|reflexivity].
  cbn. intros HE. destruct HE as [E | F]; [discriminate E | exact F].
Qed.

(** C9. Rejecting an upload for its MIME type changes the error message
    and no other state cell. *)
Theorem handleImageChange_rejection_frame (f : File) (st : AppState) :
  ~ In (type f) supportedMimeTypes ->
  let s' := final (exec o (handleImageChange (Some f)) st) in
  s' = applySetter (setError (Some msgUnsupported)) st /\
  image s' = image st /\
  generatedImage s' = generatedImage st /\
  fileInfo s' = fileInfo st /\
  prompt s' = prompt st /\
  activeStyle s' = activeStyle st /\
  isLoading s' = isLoading st /\
  isStylePanelOpen s' = isStylePanelOpen st /\
  isPromptEditorOpen s' = isPromptEditorOpen st /\
  isCheckingKey s' = isCheckingKey st /\
  isKeyReady s' = isKeyReady st.
Proof.
  intros H. rewrite (handleImageChange_unsupported f H). repeat split.
Qed.

End HandleImageChange.

Section HandleImageChangeScenario.
Import JS App Scenario.

Lemma notes_unsupported : ~ In (type notes) supportedMimeTypes.
Proof. cbn. intros H. decompose [Logic.or] H; first [discriminate | contradiction]. Qed.

Lemma handleImageChange_rejects_before_encode_witness :
  type notes = "text/plain" /\
  calls (exec (answering photoUrl) (handleImageChange (Some notes))
           (uploaded standalone (answering photoUrl))) = [].
Proof.
  split; [reflexivity|].
  exact (proj1 (proj2 (handleImageChange_rejects_before_encode
                         (answering photoUrl) notes
                         (uploaded standalone (answering photoUrl))
                         notes_unsupported))).
Defined.

Lemma handleImageChange_rejection_frame_witness :
  let st := generated standalone "data:image/png;base64,Q0ND" in
  image (final (exec (answering photoUrl) (handleImageChange (Some notes)) st))
  = image st.
Proof.
  exact (proj1 (proj2 (handleImageChange_rejection_frame
                         (answering photoUrl) notes
                         (generated standalone "data:image/png;base64,Q0ND")
                         notes_unsupported))).
Defined.

End HandleImageChangeScenario.

(** ** The access gate: [checkApiKey] *)
Section CheckApiKey.
Import JS App.

(** C8. However the startup check goes, [isCheckingKey] ends [false]; and
    when [window.aistudio.hasSelectedApiKey()] is rejected, the [catch]
    block sets the gate to Ready. *)
Theorem checkApiKey_error_opens_gate (env : Env) (o : Oracle) (st : AppState) :
  let r := exec o (checkApiKey env) st in
  isCheckingKey (final r) = false /\
  (forall err,
      aistudio env = true ->
      o hasSelectedApiKey = Rejected err ->
      isKeyReady (final r) = true /\ calls r = [hasSelectedApiKey]).
Proof.
  unfold checkApiKey. destruct (aistudio env); cbn.
  - split.
    + destruct (o hasSelectedApiKey); reflexivity.
    + intros err _ ->. split; reflexivity.
  - split; [reflexivity|]. discriminate.
Qed.

Lemma checkApiKey_error_opens_gate_witness :
  isKeyReady initialState = false /\
  isKeyReady (final (exec Scenario.brokenHost
                       (checkApiKey Scenario.studio) initialState)) = true.
Proof.
  split; [reflexivity|].
  exact (proj1 (proj2 (checkApiKey_error_opens_gate
                         Scenario.studio Scenario.brokenHost initialState)
                   (ErrorObj "host unavailable") eq_refl eq_refl)).
Defined.

End CheckApiKey.

(** ** More on [split] and [parseDataUrl] *)
Section SplitParts.
Import JS.
Variable sep : ascii.

Lemma hd_split_In (s : string) :
  In (hd EmptyString (split sep s)) (split sep s).
Proof.
  pose proof (split_nonempty sep s) as H.
  destruct (split sep s); [congruence|now left].
Qed.

(** A part of a joined list has no more of a character than the whole. *)
Lemma occurs_join_ge (c : ascii) (l : list string) (p : string) :
  In p l -> occurs c p <= occurs c (join sep l).
Proof.
  induction l as [|a l IH]; [intros []|].
  intros [-> | H].
  - destruct l as [|b l]; [simpl; lia|].
    change (join sep (p :: b :: l))
      with (p ++ String sep (join sep (b :: l))).
    rewrite occurs_app. lia.
  - destruct l as [|b l]; [destruct H|].
    change (join sep (a :: b :: l))
      with (a ++ String sep (join sep (b :: l))).
    rewrite occurs_app. specialize (IH H).
    cbn [occurs]. lia.
Qed.

Lemma occurs_split_part (c : ascii) (s p : string) :
  In p (split sep s) -> occurs c p <= occurs c s.
Proof.
  intros H. rewrite <- (join_split sep s) at 1.
  now apply occurs_join_ge.
Qed.

(** The first part of a list, then nothing or a separator and the rest. *)
Lemma join_hd (l : list string) :
  l <> [] ->
  exists tail,
    join sep l = hd EmptyString l ++ tail /\
    (tail = EmptyString \/ exists t, tail = String sep t).
Proof.
  destruct l as [|a [|b l]]; [congruence| |]; intros _.
  - exists EmptyString. split; [|now left].
    simpl. clear. induction a as [|x a IH]; simpl; congruence.
  - exists (String sep (join sep (b :: l))). split; [reflexivity|].
    right. eauto.
Qed.

(** Splitting after a separator-free prefix. *)
Lemma split_app_free (a b : string) :
  occurs sep a = 0 ->
  split sep (a ++ b)
  = (a ++ hd EmptyString (split sep b)) :: tl (split sep b).
Proof.
  induction a as [|c a IH]; simpl.
  - intros _. pose proof (split_nonempty sep b) as H.
    destruct (split sep b); [congruence|reflexivity].
  - destruct (Ascii.eqb c sep); [discriminate|].
    simpl. intros H. now rewrite (IH H).
Qed.

End SplitParts.

Lemma append_nil_r (a : string) : a ++ EmptyString = a.
Proof. induction a as [|x a IH]; simpl; congruence. Qed.

Section ParseDataUrlMore.
Import JS FileUtils.


(** X2. A returned [base64Data] holds no comma, and a returned [mimeType]
    none of the three delimiters. *)
Theorem parseDataUrl_result_delimiter_free (s : string) (fi : FileInfo) :
  parseDataUrl s = Return fi ->
  occurs "," (base64Data fi) = 0 /\
  occurs ";" (mimeType fi) = 0 /\
  occurs ":" (mimeType fi) = 0 /\
  occurs "," (mimeType fi) = 0.
Proof.
  intros H.
  destruct (parseDataUrl_Return_inv _ _ H)
    as (x0 & c & r & xs & payload & E1 & E2 & ->).
  cbn [base64Data mimeType].
  pose proof (split_parts_free "," s) as F. rewrite E1 in F.
  pose proof (Forall_inv F) as Fm.
  pose proof (Forall_inv (Forall_inv_tail F)) as Fp.
  cbv beta in Fm, Fp.
  pose proof (split_parts_free ":" (join ":" (x0 :: String c r :: xs))) as G.
  rewrite E2 in G.
  pose proof (Forall_inv (Forall_inv_tail G)) as G1. cbv beta in G1.
  assert (Hin : In (String c r) (split ":" (join ":" (x0 :: String c r :: xs)))).
  { rewrite E2. right. now left. }
  pose proof (occurs_split_part ":" "," _ _ Hin) as Hcomma.
  pose proof (hd_split_In ";" (String c r)) as Hhd.
  pose proof (occurs_split_part ";" ":" _ _ Hhd) as H1.
  pose proof (occurs_split_part ";" "," _ _ Hhd) as H2.
  pose proof (split_parts_free ";" (String c r)) as S.
  rewrite Forall_forall in S. specialize (S _ Hhd).
  repeat split; lia.
Qed.

Lemma parseDataUrl_result_delimiter_free_witness :
  occurs "," "iVBORw0KGgo=" = 0 /\ occurs ";" "image/webp" = 0 /\
  occurs ":" "image/webp" = 0 /\ occurs "," "image/webp" = 0.
Proof.
  exact (parseDataUrl_result_delimiter_free
           "data:image/webp;base64,iVBORw0KGgo="
           {| mimeType := "image/webp"; base64Data := "iVBORw0KGgo=" |}
           eq_refl).
Defined.

(** X3. Where the result sits in the input: [mimeType] directly follows the
    first colon and is followed by the end of the metadata, a [';'] or a
    [':']; [base64Data] is everything after the comma. *)
Theorem parseDataUrl_result_position (s : string) (fi : FileInfo) :
  parseDataUrl s = Return fi ->
  exists scheme tail,
    s = scheme ++ ":" ++ mimeType fi ++ tail ++ "," ++ base64Data fi /\
    occurs ":" scheme = 0 /\
    (tail = EmptyString \/
     exists t, tail = String ";" t \/ tail = String ":" t).
Proof.
  intros H.
  destruct (parseDataUrl_Return_inv _ _ H)
    as (x0 & c & r & xs & payload & E1 & E2 & ->).
  cbn [base64Data mimeType].
  pose proof (join_split "," s) as J. rewrite E1 in J.
  change (join "," [join ":" (x0 :: String c r :: xs); payload])
    with (join ":" (x0 :: String c r :: xs) ++ String "," payload) in J.
  change (join ":" (x0 :: String c r :: xs))
    with (x0 ++ String ":" (join ":" (String c r :: xs))) in J.
  pose proof (split_parts_free ":" (join ":" (x0 :: String c r :: xs))) as G.
  rewrite E2 in G. pose proof (Forall_inv G) as G0. cbv beta in G0.
  destruct (join_hd ":" (String c r :: xs)) as (t2 & J2 & Ht2);
    [discriminate|].
  cbn [hd] in J2.
  destruct (join_hd ";" (split ";" (String c r))) as (t1 & J1 & Ht1);
    [apply split_nonempty|].
  rewrite join_split in J1.
  exists x0, (t1 ++ t2). split; [|split; [exact G0|]].
  - rewrite <- J, J2. rewrite J1 at 1.
    rewrite !append_assoc. cbn [append]. rewrite !append_assoc. reflexivity.
  - destruct Ht1 as [-> | [t ->]].
    + destruct Ht2 as [-> | [t ->]]; [now left|].
      right. exists t. now right.
    + right. exists (t ++ t2). now left.
Qed.

Lemma parseDataUrl_result_position_witness :
  exists scheme tail,
    "data:image/webp;base64,iVBORw0KGgo="
    = scheme ++ ":" ++ "image/webp" ++ tail ++ "," ++ "iVBORw0KGgo=" /\
    occurs ":" scheme = 0 /\
    (tail = EmptyString \/
     exists t, tail = String ";" t \/ tail = String ":" t).
Proof.
  exact (parseDataUrl_result_position
           "data:image/webp;base64,iVBORw0KGgo="
           {| mimeType := "image/webp"; base64Data := "iVBORw0KGgo=" |}
           eq_refl).
Defined.

End ParseDataUrlMore.

Section ParseDataUrlForms.
Import JS FileUtils.

(** X4. Any scheme and any parameters: for [<scheme>:<mime>;<params>,<payload>]
    with a colon-free scheme, a [<mime>] free of the three delimiters and a
    single comma, the result is [<mime>] and [<payload>]. The scheme need not
    be [data], the parameters need not be [base64] and may hold colons, and
    [<mime>] may be empty. *)
Theorem parseDataUrl_any_scheme_params
        (scheme mime params payload : string) :
  occurs ":" scheme = 0 -> occurs "," scheme = 0 ->
  occurs ":" mime = 0 -> occurs ";" mime = 0 -> occurs "," mime = 0 ->
  occurs "," params = 0 -> occurs "," payload = 0 ->
  parseDataUrl (scheme ++ ":" ++ mime ++ ";" ++ params ++ "," ++ payload)
  = Return {| mimeType := mime; base64Data := payload |}.
Proof.
  intros Hs1 Hs2 Hm1 Hm2 Hm3 Hpar Hpay.
  replace (scheme ++ ":" ++ mime ++ ";" ++ params ++ "," ++ payload)
    with ((scheme ++ String ":" (mime ++ String ";" params))
            ++ String "," payload)
    by (rewrite ?append_assoc; cbn [append]; rewrite ?append_assoc;
        reflexivity).
  rewrite parseDataUrl_one_comma;
    [| rewrite occurs_app; cbn [occurs]; rewrite occurs_app; cbn [occurs];
       simpl; lia | exact Hpay].
  unfold parseMeta.
  rewrite (split_app ":" scheme _ Hs1).
  rewrite (split_app_free ":" mime (String ";" params) Hm1).
  destruct (split_cons_neq ":" ";" params) as (h & t & E); [discriminate|].
  rewrite E. cbn [nth_error hd tl].
  assert (T : truthy (mime ++ String ";" h) = true) by (destruct mime; reflexivity).
  rewrite T, (split_app ";" mime h Hm2). reflexivity.
Qed.

Lemma parseDataUrl_any_scheme_params_witness :
  parseDataUrl "blob:text/html;charset=utf-8;x=1:2,PGI+"
  = Return {| mimeType := "text/html"; base64Data := "PGI+" |}.
Proof.
  apply (parseDataUrl_any_scheme_params
           "blob" "text/html" "charset=utf-8;x=1:2" "PGI+"); reflexivity.
Defined.

(** X5. Without any parameter: [<scheme>:<mime>,<payload>] with a non-empty
    [<mime>] is accepted as well, and the text after the comma is returned as
    [base64Data] whether or not it is base64. *)
Theorem parseDataUrl_without_params (scheme mime payload : string) :
  occurs ":" scheme = 0 -> occurs "," scheme = 0 ->
  mime <> EmptyString ->
  occurs ":" mime = 0 -> occurs ";" mime = 0 -> occurs "," mime = 0 ->
  occurs "," payload = 0 ->
  parseDataUrl (scheme ++ ":" ++ mime ++ "," ++ payload)
  = Return {| mimeType := mime; base64Data := payload |}.
Proof.
  intros Hs1 Hs2 Hne Hm1 Hm2 Hm3 Hpay.
  replace (scheme ++ ":" ++ mime ++ "," ++ payload)
    with ((scheme ++ String ":" mime) ++ String "," payload)
    by (rewrite ?append_assoc; cbn [append]; rewrite ?append_assoc;
        reflexivity).
  rewrite parseDataUrl_one_comma;
    [| rewrite occurs_app; cbn [occurs]; simpl; lia | exact Hpay].
  unfold parseMeta.
  rewrite (split_app ":" scheme _ Hs1), (split_free ":" mime Hm1).
  cbn [nth_error]. apply truthy_true in Hne. rewrite Hne.
  rewrite (split_free ";" mime Hm2). reflexivity.
Qed.

Lemma parseDataUrl_without_params_witness :
  parseDataUrl "data:text/plain,hello world"
  = Return {| mimeType := "text/plain"; base64Data := "hello world" |}.
Proof.
  apply (parseDataUrl_without_params "data" "text/plain" "hello world");
    first [reflexivity | discriminate].
Defined.

End ParseDataUrlForms.

(** ** The upload, file by file *)
Section Upload.
Import JS App.
Variable o : Oracle.

Lemma parseDataUrl_truthy (dataUrl : string) (fi : FileInfo) :
  parseDataUrl dataUrl = Return fi -> truthy dataUrl = true.
Proof. destruct dataUrl; [discriminate|reflexivity]. Qed.

(** Runs [handleImageChange] on a supported file up to the settled read. *)
Ltac run_upload Hin Ho :=
  apply arrayIncludes_spec in Hin;
  unfold handleImageChange; rewrite Hin;
  cbn -[parseDataUrl]; rewrite Ho; cbn -[parseDataUrl].

(** The state a supported upload starts from once the two clearing setters
    have run and the data URL is set. *)
Lemma final_upload_parsed
      (f : File) (st : AppState) (dataUrl : string) (fi : FileInfo) :
  In (type f) supportedMimeTypes ->
  o (fileToDataUrl f) = Fulfilled dataUrl ->
  parseDataUrl dataUrl = Return fi ->
  exec o (handleImageChange (Some f)) st
  = let s1 := applySetter (setGeneratedImage None)
                (applySetter (setError None) st) in
    {| final := applySetter (setFileInfo (Some fi))
                  (applySetter (setImage (Some dataUrl)) s1);
       trace := [ESet (setError None); ESet (setGeneratedImage None);
                 ECall (fileToDataUrl f); ESet (setImage (Some dataUrl));
                 ESet (setFileInfo (Some fi))];
       suspended := [s1] |}.
Proof.
  intros Hin Ho Hp. run_upload Hin Ho. rewrite Hp. reflexivity.
Qed.

Lemma final_upload_unparsed
      (f : File) (st : AppState) (dataUrl : string) (e : Thrown) :
  In (type f) supportedMimeTypes ->
  o (fileToDataUrl f) = Fulfilled dataUrl ->
  parseDataUrl dataUrl = Throw e ->
  exec o (handleImageChange (Some f)) st
  = let s1 := applySetter (setGeneratedImage None)
                (applySetter (setError None) st) in
    {| final := applySetter (setError (Some msgReadFailed))
                  (applySetter (setImage (Some dataUrl)) s1);
       trace := [ESet (setError None); ESet (setGeneratedImage None);
                 ECall (fileToDataUrl f); ESet (setImage (Some dataUrl));
                 ESet (setError (Some msgReadFailed)); ELog];
       suspended := [s1] |}.
Proof.
  intros Hin Ho Hp. run_upload Hin Ho. rewrite Hp. reflexivity.
Qed.

(** X6. A supported file that is read and parsed: one call to the reader;
    the data URL becomes [image] and the picture shown, its parse becomes
    [fileInfo], and the earlier generated image and error are gone. *)
Theorem handleImageChange_success
        (f : File) (st : AppState) (dataUrl : string) (fi : FileInfo) :
  In (type f) supportedMimeTypes ->
  o (fileToDataUrl f) = Fulfilled dataUrl ->
  parseDataUrl dataUrl = Return fi ->
  let r := exec o (handleImageChange (Some f)) st in
  calls r = [fileToDataUrl f] /\
  image (final r) = Some dataUrl /\
  fileInfo (final r) = Some fi /\
  generatedImage (final r) = None /\
  error (final r) = None /\
  View.shownImage (final r) = Some dataUrl /\
  prompt (final r) = prompt st /\
  isLoading (final r) = isLoading st /\
  isKeyReady (final r) = isKeyReady st.
Proof.
  intros Hin Ho Hp. pose proof (parseDataUrl_truthy _ _ Hp) as Ht.
  rewrite (final_upload_parsed f st dataUrl fi Hin Ho Hp).
  repeat split.
  unfold View.shownImage, currentImage, logicalOr. cbn. now rewrite Ht.
Qed.

(** X7. A supported file the reader fails on: the read-failure message is
    set, [image] and [fileInfo] stay those of the previous upload, but the
    generated image has already been cleared. *)
Theorem handleImageChange_read_failure
        (f : File) (st : AppState) (err : Thrown) :
  In (type f) supportedMimeTypes ->
  o (fileToDataUrl f) = Rejected err ->
  let r := exec o (handleImageChange (Some f)) st in
  error (final r) = Some msgReadFailed /\
  generatedImage (final r) = None /\
  image (final r) = image st /\
  fileInfo (final r) = fileInfo st /\
  currentImage (final r) = image st.
Proof.
  intros Hin Ho. run_upload Hin Ho. repeat split.
Qed.

(** X8. A supported file whose data URL does not parse: [setImage] has run
    before [parseDataUrl] throws, so [image] is the new data URL while
    [fileInfo] is still what it was; the read-failure message is set. *)
Theorem handleImageChange_parse_failure
        (f : File) (st : AppState) (dataUrl : string) (e : Thrown) :
  In (type f) supportedMimeTypes ->
  o (fileToDataUrl f) = Fulfilled dataUrl ->
  parseDataUrl dataUrl = Throw e ->
  let r := exec o (handleImageChange (Some f)) st in
  image (final r) = Some dataUrl /\
  fileInfo (final r) = fileInfo st /\
  generatedImage (final r) = None /\
  error (final r) = Some msgReadFailed /\
  prompt (final r) = prompt st /\
  isLoading (final r) = isLoading st.
Proof.
  intros Hin Ho Hp.
  rewrite (final_upload_unparsed f st dataUrl e Hin Ho Hp). repeat split.
Qed.

End Upload.

Section UploadScenario.
Import JS App Scenario.

Lemma photo_supported : In (type photo) supportedMimeTypes.
Proof. now left. Qed.

Lemma handleImageChange_success_witness :
  fileInfo (final (exec (answering photoUrl)
                     (handleImageChange (Some photo)) initialState))
  = Some photoInfo.
Proof.
  exact (proj1 (proj2 (proj2 (handleImageChange_success
                                (answering photoUrl) photo initialState
                                photoUrl photoInfo
                                photo_supported eq_refl eq_refl)))).
Defined.

Lemma handleImageChange_read_failure_witness :
  let o := Oracles.reading (Rejected OtherValue) (Fulfilled photoUrl) in
  let st := generated standalone "data:image/png;base64,Q0ND" in
  generatedImage st = Some "data:image/png;base64,Q0ND" /\
  generatedImage (final (exec o (handleImageChange (Some photo)) st)) = None.
Proof.
  split; [reflexivity|].
  exact (proj1 (proj2 (handleImageChange_read_failure
                         (Oracles.reading (Rejected OtherValue)
                                          (Fulfilled photoUrl))
                         photo
                         (generated standalone "data:image/png;base64,Q0ND")
                         OtherValue photo_supported eq_refl))).
Defined.

Lemma handleImageChange_parse_failure_witness :
  let o := Oracles.reading (Fulfilled "data:") (Fulfilled photoUrl) in
  let st := uploaded standalone (answering photoUrl) in
  let st' := final (exec o (handleImageChange (Some photo)) st) in
  image st' = Some "data:" /\ fileInfo st' = Some photoInfo.
Proof.
  pose proof (handleImageChange_parse_failure
                (Oracles.reading (Fulfilled "data:") (Fulfilled photoUrl))
                photo (uploaded standalone (answering photoUrl))
                "data:" errInvalidFormat photo_supported eq_refl eq_refl)
    as H.
  cbv zeta. split; [exact (proj1 H)|].
  exact (eq_trans (proj1 (proj2 H)) eq_refl).
Defined.

End UploadScenario.

(** ** Uploads and requests together *)
Section UploadThenGenerate.
Import JS App.
Variable env : Env.

(** A valid request makes exactly the call built from [fileInfo] and
    [prompt]. *)
Lemma calls_handleGenerate_valid (o : Oracle) (st : AppState) (fi : FileInfo) :
  fileInfo st = Some fi ->
  prompt st <> EmptyString ->
  calls (exec o (handleGenerate env st) st) = [generateCall fi (prompt st)].
Proof.
  intros Hfi Hp. rewrite (exec_handleGenerate_valid env o st fi Hfi Hp).
  cbv zeta. unfold calls. cbn [trace flat_map app].
  destruct (handleGenerateSettled_no_await env o
              (o (generateCall fi (prompt st))) (requestSent st)) as [_ Hc].
  unfold calls in Hc. now rewrite Hc.
Qed.

(** X9. Upload, then generate: the service is called with the payload and
    the MIME type [parseDataUrl] took from the uploaded data URL, and with
    the prompt as it stands. *)
Theorem upload_then_generate
        (o o' : Oracle) (f : File) (st : AppState)
        (dataUrl : string) (fi : FileInfo) :
  In (type f) supportedMimeTypes ->
  o (fileToDataUrl f) = Fulfilled dataUrl ->
  parseDataUrl dataUrl = Return fi ->
  prompt st <> EmptyString ->
  let st' := final (exec o (handleImageChange (Some f)) st) in
  calls (exec o' (handleGenerate env st') st')
  = [generateProfessionalHeadshot (base64Data fi) (mimeType fi) (prompt st)].
Proof.
  intros Hin Ho Hparse Hp.
  rewrite (final_upload_parsed o f st dataUrl fi Hin Ho Hparse).
  cbv zeta. cbn [final].
  rewrite calls_handleGenerate_valid with (fi := fi);
    [reflexivity | reflexivity | exact Hp].
Qed.

(** X10. After an upload whose data URL did not parse, the picture shown is
    the new file but a request still sends the previous upload's data. *)
Theorem stale_fileInfo_is_sent
        (o o' : Oracle) (f : File) (st : AppState)
        (dataUrl : string) (e : Thrown) (old : FileInfo) :
  In (type f) supportedMimeTypes ->
  o (fileToDataUrl f) = Fulfilled dataUrl ->
  parseDataUrl dataUrl = Throw e ->
  fileInfo st = Some old ->
  prompt st <> EmptyString ->
  let st' := final (exec o (handleImageChange (Some f)) st) in
  currentImage st' = Some dataUrl /\
  calls (exec o' (handleGenerate env st') st')
  = [generateCall old (prompt st)].
Proof.
  intros Hin Ho Hparse Hold Hp.
  rewrite (final_upload_unparsed o f st dataUrl e Hin Ho Hparse).
  cbv zeta. cbn [final]. split; [reflexivity|].
  rewrite calls_handleGenerate_valid with (fi := old);
    [reflexivity | exact Hold | exact Hp].
Qed.

(** X11. After a first upload whose data URL did not parse, an image is set
    and the Generate button is enabled, but the click is turned down by the
    entry guard: the validation message replaces the read-failure one and no
    call is made. *)
Theorem unparsed_first_upload
        (o o' : Oracle) (f : File) (st : AppState)
        (dataUrl : string) (e : Thrown) :
  In (type f) supportedMimeTypes ->
  o (fileToDataUrl f) = Fulfilled dataUrl ->
  parseDataUrl dataUrl = Throw e ->
  dataUrl <> EmptyString ->
  fileInfo st = None ->
  isLoading st = false ->
  let st' := final (exec o (handleImageChange (Some f)) st) in
  let r := exec o' (handleGenerate env st') st' in
  error st' = Some msgReadFailed /\
  View.generateDisabled st' = false /\
  calls r = [] /\
  error (final r) = Some msgValidation.
Proof.
  intros Hin Ho Hparse Hne Hnone Hl.
  rewrite (final_upload_unparsed o f st dataUrl e Hin Ho Hparse).
  cbv zeta. cbn [final]. apply truthy_true in Hne.
  split; [reflexivity|]. split.
  - unfold View.generateDisabled. cbn. now rewrite Hl, Hne.
  - unfold handleGenerate. cbn [fileInfo applySetter]. rewrite Hnone.
    split; reflexivity.
Qed.

End UploadThenGenerate.

Section UploadThenGenerateScenario.
Import JS App Scenario.

Lemma upload_then_generate_witness :
  let st' := final (exec (answering photoUrl)
                      (handleImageChange (Some photo)) initialState) in
  calls (exec (failing "quota exceeded") (handleGenerate standalone st') st')
  = [generateProfessionalHeadshot "AAAAAAAAAAA=" "image/png"
       (prompt initialState)].
Proof.
  apply (upload_then_generate standalone (answering photoUrl)
           (failing "quota exceeded") photo initialState photoUrl photoInfo
           photo_supported eq_refl eq_refl).
  discriminate.
Defined.

Lemma stale_fileInfo_is_sent_witness :
  let o := Oracles.reading (Fulfilled "data:") (Fulfilled photoUrl) in
  let st := uploaded standalone (answering photoUrl) in
  let st' := final (exec o (handleImageChange (Some photo)) st) in
  currentImage st' = Some "data:" /\
  calls (exec o (handleGenerate standalone st') st')
  = [generateCall photoInfo (prompt st)].
Proof.
  apply (stale_fileInfo_is_sent standalone
           (Oracles.reading (Fulfilled "data:") (Fulfilled photoUrl))
           (Oracles.reading (Fulfilled "data:") (Fulfilled photoUrl))
           photo (uploaded standalone (answering photoUrl))
           "data:" errInvalidFormat photoInfo
           photo_supported eq_refl eq_refl eq_refl).
  discriminate.
Defined.

Lemma unparsed_first_upload_witness :
  let o := Oracles.reading (Fulfilled "data:") (Fulfilled photoUrl) in
  let st' := final (exec o (handleImageChange (Some photo)) initialState) in
  View.generateDisabled st' = false /\
  calls (exec o (handleGenerate standalone st') st') = [].
Proof.
  pose proof (unparsed_first_upload standalone
                (Oracles.reading (Fulfilled "data:") (Fulfilled photoUrl))
                (Oracles.reading (Fulfilled "data:") (Fulfilled photoUrl))
                photo initialState "data:" errInvalidFormat
                photo_supported eq_refl eq_refl) as H.
  cbv zeta in *.
  assert (Hne : "data:" <> EmptyString) by discriminate.
  destruct (H Hne eq_refl eq_refl) as (_ & H1 & H2 & _).
  split; assumption.
Defined.

End UploadThenGenerateScenario.

(** ** The access gate and the screens *)
Section Gate.
Import JS App View.

(** X12. After the startup check the spinner is gone, and the sign-in page
    is shown exactly when [window.aistudio] exists and its key check is
    fulfilled with [false]; without [window.aistudio] no host call is made. *)
Theorem checkApiKey_screen (env : Env) (o : Oracle) (st : AppState) :
  let r := exec o (checkApiKey env) st in
  screen (final r) <> SpinnerScreen /\
  (screen (final r) = SignInScreen <->
   aistudio env = true /\ o hasSelectedApiKey = Fulfilled false) /\
  (aistudio env = false -> calls r = []).
Proof.
  unfold checkApiKey. destruct (aistudio env); cbn.
  - destruct (o hasSelectedApiKey) as [b | e] eqn:E;
      [cbn in b; destruct b|]; cbn;
      (split; [discriminate|]);
      (split; [|discriminate]);
      split; try discriminate; try (intros [_ H]; discriminate H);
      intros _; split; reflexivity.
  - split; [discriminate|]. split; [|reflexivity].
    split; [discriminate|intros [H _]; discriminate H].
Qed.

(** X13. [handleSignIn] does nothing without [window.aistudio]. With it, the
    dialog is the only call: when it closes normally the gate becomes Ready
    without the key being checked again and the error slot is left as it is;
    when it fails the gate is left as it is and a message is set. *)
Theorem handleSignIn_outcomes (env : Env) (o : Oracle) (st : AppState) :
  let r := exec o (handleSignIn env) st in
  (aistudio env = false -> trace r = [] /\ final r = st) /\
  (aistudio env = true ->
   calls r = [openSelectKey] /\
   match o openSelectKey with
   | Fulfilled _ =>
       isKeyReady (final r) = true /\ error (final r) = error st
   | Rejected _ =>
       isKeyReady (final r) = isKeyReady st /\
       error (final r)
       = Some "Could not open the sign-in dialog. Please try again."
   end).
Proof.
  unfold handleSignIn. destruct (aistudio env); cbn.
  - split; [discriminate|]. intros _.
    destruct (o openSelectKey); repeat split.
  - split; [intros _; split; reflexivity|discriminate].
Qed.

(** X14. Session expiry and back, inside AI Studio: a request that fails
    with the not-found phrase leads to the sign-in page with the
    session-expired message; signing in again leads back to the main page,
    where the upload is still there and the message is still set. *)
Theorem expiry_then_sign_in
        (o o' : Oracle) (st : AppState) (fi : FileInfo) (err : Thrown) :
  isCheckingKey st = false ->
  fileInfo st = Some fi ->
  prompt st <> EmptyString ->
  o (generateCall fi (prompt st)) = Rejected err ->
  Contains (errorMessageOf err) entityNotFound ->
  o' openSelectKey = Fulfilled tt ->
  let env := {| aistudio := true |} in
  let st1 := final (exec o (handleGenerate env st) st) in
  let st2 := final (exec o' (handleSignIn env) st1) in
  screen st1 = SignInScreen /\
  error st1 = Some msgSessionExpired /\
  screen st2 = MainScreen /\
  error st2 = Some msgSessionExpired /\
  image st2 = image st /\
  fileInfo st2 = fileInfo st /\
  generatedImage st2 = None.
Proof.
  intros Hck Hfi Hp Ho Hc Ho'. cbv zeta.
  rewrite (exec_handleGenerate_valid _ o st fi Hfi Hp). cbv zeta.
  rewrite Ho. unfold handleGenerateSettled.
  apply includes_spec in Hc. rewrite Hc.
  unfold handleSignIn. cbn. rewrite Ho'. cbn.
  unfold screen. cbn. rewrite Hck. repeat split.
Qed.

End Gate.

Section GateScenario.
Import JS App View Scenario.

Lemma expiry_then_sign_in_witness :
  let o := failing "Requested entity was not found" in
  let st := uploaded studio o in
  let st1 := final (exec o (handleGenerate studio st) st) in
  screen st = MainScreen /\
  screen st1 = SignInScreen /\
  screen (final (exec o (handleSignIn studio) st1)) = MainScreen.
Proof.
  pose proof (expiry_then_sign_in
                (failing "Requested entity was not found")
                (failing "Requested entity was not found")
                (uploaded studio (failing "Requested entity was not found"))
                photoInfo (ErrorObj "Requested entity was not found")
                eq_refl eq_refl) as H.
  cbv zeta in *.
  assert (Hp : prompt (uploaded studio
                         (failing "Requested entity was not found"))
               <> EmptyString) by discriminate.
  assert (Hc : Contains (errorMessageOf
                           (ErrorObj "Requested entity was not found"))
                        entityNotFound)
    by (exists EmptyString, EmptyString; reflexivity).
  destruct (H Hp eq_refl Hc eq_refl) as (H1 & _ & H2 & _).
  split; [reflexivity|]. split; assumption.
Defined.

End GateScenario.

(** ** The request, the button and the download *)
Section RequestView.
Import JS App View.
Variable env : Env.
Variable o : Oracle.

(** X15. While a valid request is outstanding the Generate button is
    disabled; once the call has settled, either way, it is disabled only if
    there is no image. *)
Theorem generate_disabled_in_flight (st : AppState) (fi : FileInfo) :
  fileInfo st = Some fi ->
  prompt st <> EmptyString ->
  let r := exec o (handleGenerate env st) st in
  Forall (fun s => generateDisabled s = true) (suspended r) /\
  suspended r <> [] /\
  isLoading (final r) = false /\
  generateDisabled (final r) = negb (truthyOpt (image st)).
Proof.
  intros Hfi Hp.
  rewrite (exec_handleGenerate_valid env o st fi Hfi Hp). cbv zeta.
  destruct (handleGenerateSettled_no_await env o
              (o (generateCall fi (prompt st))) (requestSent st)) as [Hs _].
  destruct (handleGenerateSettled_frame env o
              (o (generateCall fi (prompt st))) (requestSent st))
    as (Hi & _ & _ & Hl).
  cbv zeta in Hi, Hl. cbn [suspended final]. rewrite Hs.
  split; [repeat constructor|]. split; [discriminate|].
  split; [exact Hl|].
  unfold generateDisabled. rewrite Hl, Hi. reflexivity.
Qed.

(** X16. What [handleDownload] does after a valid request: after a
    fulfilled call with a non-empty image it downloads that image as
    [davinci-canvas-image.png]; after a rejected call it does nothing and
    the download button is not rendered, whatever had been generated
    before. *)
Theorem handleDownload_after_generate (st : AppState) (fi : FileInfo) :
  fileInfo st = Some fi ->
  prompt st <> EmptyString ->
  let st' := final (exec o (handleGenerate env st) st) in
  match o (generateCall fi (prompt st)) with
  | Fulfilled result =>
      result <> EmptyString ->
      handleDownload st'
      = [CreateAnchor; SetHref result;
         SetDownload "davinci-canvas-image.png";
         AppendChild; Click; RemoveChild]
  | Rejected _ =>
      handleDownload st' = [] /\ downloadShown st' = false
  end.
Proof.
  intros Hfi Hp.
  rewrite (exec_handleGenerate_valid env o st fi Hfi Hp). cbv zeta.
  cbn [final].
  destruct (o (generateCall fi (prompt st))) as [result | err].
  - intros Hr. apply truthy_true in Hr.
    unfold handleDownload. cbn. now rewrite Hr.
  - unfold handleDownload, downloadShown.
    match goal with
    | |- context [generatedImage ?x] =>
        replace (generatedImage x) with (@None string)
          by (symmetry;
              exact (handleGenerateSettled_Rejected_generatedImage
                       env o err (requestSent st)))
    end.
    cbn. split; [reflexivity|apply andb_false_r].
Qed.

End RequestView.

Section RequestViewScenario.
Import JS App View Scenario.

Lemma generate_disabled_in_flight_witness :
  let o := answering "data:image/png;base64,Q0ND" in
  let st := uploaded standalone o in
  generateDisabled st = false /\
  generateDisabled (final (exec o (handleGenerate standalone st) st)) = false.
Proof.
  split; [reflexivity|].
  assert (Hp : prompt (uploaded standalone
                         (answering "data:image/png;base64,Q0ND"))
               <> EmptyString) by discriminate.
  exact (eq_trans
           (proj2 (proj2 (proj2
              (generate_disabled_in_flight standalone
                 (answering "data:image/png;base64,Q0ND")
                 (uploaded standalone (answering "data:image/png;base64,Q0ND"))
                 photoInfo eq_refl Hp))))
           eq_refl).
Defined.

Lemma handleDownload_after_generate_witness :
  let o := failing "quota exceeded" in
  let st := generated standalone "data:image/png;base64,Q0ND" in
  handleDownload st <> [] /\
  handleDownload (final (exec o (handleGenerate standalone st) st)) = [].
Proof.
  split; [discriminate|].
  assert (Hp : prompt (generated standalone "data:image/png;base64,Q0ND")
               <> EmptyString) by discriminate.
  exact (proj1 (handleDownload_after_generate standalone
                  (failing "quota exceeded")
                  (generated standalone "data:image/png;base64,Q0ND")
                  photoInfo eq_refl Hp)).
Defined.

End RequestViewScenario.

(** ** Styles *)
Section SelectStyle.
Import JS App View.
Variable env : Env.

(** X17. Choosing a style of the catalog: its prompt replaces the working
    prompt, the panel closes, that style and no other is highlighted, and
    with an upload present the next request is sent with that prompt (no
    catalog prompt is empty, so the entry guard lets it through). *)
Theorem select_style_then_generate
        (o o' : Oracle) (st : AppState) (fi : FileInfo)
        (style : Styles.PhotoStyle) :
  In style Styles.styles ->
  fileInfo st = Some fi ->
  let st1 := final (exec o (handleSelectStyle style) st) in
  prompt st1 = Styles.prompt style /\
  isStylePanelOpen st1 = false /\
  filter (highlighted st1) Styles.styles = [style] /\
  calls (exec o' (handleGenerate env st1) st1)
  = [generateCall fi (Styles.prompt style)].
Proof.
  intros Hin Hfi. cbv zeta.
  assert (Hp : Styles.prompt style <> EmptyString).
  { unfold Styles.styles in Hin. cbn [In] in Hin.
    decompose [Logic.or] Hin; subst; try discriminate. contradiction. }
  split; [reflexivity|]. split; [reflexivity|]. split.
  - unfold Styles.styles in Hin. cbn [In] in Hin.
    decompose [Logic.or] Hin; subst; try reflexivity. contradiction.
  - rewrite calls_handleGenerate_valid with (fi := fi);
      [reflexivity | exact Hfi | exact Hp].
Qed.

End SelectStyle.

Section SelectStyleScenario.
Import JS App View Scenario.

Lemma select_style_then_generate_witness :
  let vintage := nth 5 Styles.styles Styles.firstStyle in
  let st := uploaded standalone (answering photoUrl) in
  let st1 := final (exec (answering photoUrl) (handleSelectStyle vintage) st) in
  Styles.id vintage = "vintage" /\
  calls (exec (answering photoUrl) (handleGenerate standalone st1) st1)
  = [generateCall photoInfo (Styles.prompt vintage)].
Proof.
  split; [reflexivity|].
  assert (Hin : In (nth 5 Styles.styles Styles.firstStyle) Styles.styles)
    by (cbn; tauto).
  exact (proj2 (proj2 (proj2
           (select_style_then_generate standalone
              (answering photoUrl) (answering photoUrl)
              (uploaded standalone (answering photoUrl)) photoInfo
              (nth 5 Styles.styles Styles.firstStyle) Hin eq_refl)))).
Defined.

End SelectStyleScenario.

(** ** Sessions *)
Section Sessions.
Import JS App View Session.
Variable env : Env.

Ltac settle_quiescent :=
  unfold Quiescent in *; cbn in *;
  repeat split; intuition (congruence || discriminate).

(** One event keeps [Quiescent]. *)
Lemma dispatch_quiescent (st : AppState) (oe : Oracle * UiEvent) :
  Quiescent st -> Quiescent (dispatch env st oe).
Proof.
  destruct oe as [o ev]. unfold dispatch. cbn [fst snd]. intros Q.
  destruct ev as [| |file| |style|text|b|b]; cbn [handlerOf].
  - unfold checkApiKey. destruct (aistudio env);
      [cbn; destruct (o hasSelectedApiKey)|]; settle_quiescent.
  - unfold handleSignIn. destruct (aistudio env);
      [cbn; destruct (o openSelectKey)|]; settle_quiescent.
  - destruct file as [f|]; [|settle_quiescent].
    unfold handleImageChange.
    destruct (arrayIncludes supportedMimeTypes (type f));
      cbn -[parseDataUrl]; [|settle_quiescent].
    destruct (o (fileToDataUrl f)) as [dataUrl | err];
      cbn -[parseDataUrl]; [|settle_quiescent].
    destruct (parseDataUrl dataUrl); settle_quiescent.
  - unfold handleGenerate.
    destruct (fileInfo st) as [fi|] eqn:Hfi; [|settle_quiescent].
    destruct (truthy (prompt st)); [|settle_quiescent].
    cbn. destruct (o (generateCall fi (prompt st))) as [result | err];
      unfold handleGenerateSettled.
    + settle_quiescent.
    + destruct (includes (errorMessageOf err) entityNotFound);
        [destruct (aistudio env)|]; settle_quiescent.
  - settle_quiescent.
  - settle_quiescent.
  - settle_quiescent.
  - settle_quiescent.
Qed.

Lemma session_keeps_quiescent (evs : list (Oracle * UiEvent)) (st : AppState) :
  Quiescent st -> Quiescent (session env evs st).
Proof.
  revert st. induction evs as [|oe evs IH]; intros st Q; [exact Q|].
  cbn [session fold_left]. apply IH, dispatch_quiescent, Q.
Qed.

(** X18. Whatever events are handled one after the other from the initial
    state, and however their calls settle: between events nothing is
    loading, a generated image never exists without a decoded upload, and a
    decoded upload never without an image. *)
Theorem session_quiescent (evs : list (Oracle * UiEvent)) :
  let st := session env evs initialState in
  isLoading st = false /\
  (generatedImage st <> None -> fileInfo st <> None) /\
  (fileInfo st <> None -> image st <> None).
Proof.
  apply (session_keeps_quiescent evs initialState).
  unfold Quiescent. cbn. repeat split; congruence.
Qed.

End Sessions.

Section StandaloneSessions.
Import JS App View Session.

(** Without [window.aistudio] no event closes an open gate. *)
Lemma dispatch_standalone_gate (st : AppState) (oe : Oracle * UiEvent) :
  screen st = MainScreen ->
  screen (dispatch {| aistudio := false |} st oe) = MainScreen.
Proof.
  destruct oe as [o ev]. unfold dispatch, screen. cbn [fst snd].
  destruct (isCheckingKey st) eqn:Hc; [discriminate|].
  destruct (isKeyReady st) eqn:Hk; [|discriminate]. intros _.
  destruct ev as [| |file| |style|text|b|b]; cbn [handlerOf].
  - cbn. reflexivity.
  - cbn. now rewrite Hc, Hk.
  - destruct file as [f|]; [|cbn; now rewrite Hc, Hk].
    unfold handleImageChange.
    destruct (arrayIncludes supportedMimeTypes (type f));
      cbn -[parseDataUrl]; [|now rewrite Hc, Hk].
    destruct (o (fileToDataUrl f)) as [dataUrl | err];
      cbn -[parseDataUrl]; [|now rewrite Hc, Hk].
    destruct (parseDataUrl dataUrl); cbn; now rewrite Hc, Hk.
  - unfold handleGenerate.
    destruct (fileInfo st) as [fi|]; [|cbn; now rewrite Hc, Hk].
    destruct (truthy (prompt st)); [|cbn; now rewrite Hc, Hk].
    cbn. destruct (o (generateCall fi (prompt st))) as [result | err];
      unfold handleGenerateSettled; [cbn; now rewrite Hc, Hk|].
    destruct (includes (errorMessageOf err) entityNotFound);
      cbn; now rewrite Hc, Hk.
  - cbn. now rewrite Hc, Hk.
  - cbn. now rewrite Hc, Hk.
  - cbn. now rewrite Hc, Hk.
  - cbn. now rewrite Hc, Hk.
Qed.

(** X19. In a standalone deployment, once the startup check has run, the
    main page is shown after every further event: no failure of any call,
    the not-found one included, brings back the spinner or the sign-in
    page. *)
Theorem standalone_always_main (o : Oracle) (evs : list (Oracle * UiEvent)) :
  screen (session {| aistudio := false |} ((o, Mount) :: evs) initialState)
  = MainScreen.
Proof.
  cbn [session fold_left].
  assert (H0 : screen (dispatch {| aistudio := false |} initialState
                         (o, Mount)) = MainScreen) by reflexivity.
  revert H0. generalize (dispatch {| aistudio := false |} initialState (o, Mount)).
  induction evs as [|oe evs IH]; intros st H; [exact H|].
  cbn [fold_left]. apply IH, dispatch_standalone_gate, H.
Qed.

End StandaloneSessions.
